(** * BlockingRecordIterator: MinHash / LSH blocking over a record stream

    A shallow embedding of [blocking/blocking.py].  Python values, strings
    and dictionaries are modelled in [Py]; the [datasketch] classes
    ([MinHash], [MinHashLSH] and its insertion session) are an interface
    ([Datasketch]); the methods of [BlockingRecordIterator] are functions
    over an explicit object state. *)

From Stdlib Require Import ZArith List String Ascii Bool Lia NArith.
From Stdlib Require Import DecimalString QArith_base.
Import ListNotations.

Local Close Scope Q_scope.
Local Open Scope Z_scope.
Local Open Scope string_scope.

(* ================================================================== *)
(** ** Python values, exceptions and strings *)
(* ================================================================== *)

Module Py.

(** The exception classes that the module raises or lets through. *)
Inductive exn : Type :=
| StopIteration
| ValueError
| AttributeError
| TypeError
| KeyError.

(** Outcome of an expression: a value, or a raised exception. *)
Inductive result (A : Type) : Type :=
| Ok (a : A)
| Raise (e : exn).
Arguments Ok {A} a.
Arguments Raise {A} e.

Definition bind {A B : Type} (m : result A) (k : A -> result B) : result B :=
  match m with
  | Ok a => k a
  | Raise e => Raise e
  end.

(** Scalar field values of a record.  Floats are left out: no property below
    computes with them. *)
Inductive value : Type :=
| VNone
| VStr (s : string)
| VInt (z : Z)
| VBool (b : bool).

(** A [dict] with string keys, in insertion order.  A Python dict never
    holds a key twice: see [wf_dict]. *)
Definition dict : Type := list (string * value).

Definition keys (d : dict) : list string := map fst d.

Definition wf_dict (d : dict) : Prop := NoDup (keys d).

(** [k in keys]. *)
Fixpoint contains (k : string) (ks : list string) : bool :=
  match ks with
  | [] => false
  | x :: t => if String.eqb x k then true else contains k t
  end.

(** [d[k]]: raises [KeyError] when the key is absent. *)
Fixpoint getitem (d : dict) (k : string) : result value :=
  match d with
  | [] => Raise KeyError
  | (x, v) :: t => if String.eqb x k then Ok v else getitem t k
  end.

(** [keys.pop(keys.index(k))] on a list: drops the first occurrence. *)
Fixpoint pop_first (k : string) (ks : list string) : list string :=
  match ks with
  | [] => []
  | x :: t => if String.eqb x k then t else x :: pop_first k t
  end.

(** [d.pop(k)] on a dict that holds [k]. *)
Fixpoint dict_pop (k : string) (d : dict) : dict :=
  match d with
  | [] => []
  | (x, v) :: t => if String.eqb x k then t else (x, v) :: dict_pop k t
  end.

(** Truth value of an object in a condition ([if val:]). *)
Definition truthy (v : value) : bool :=
  match v with
  | VNone => false
  | VStr s => negb (String.eqb s "")
  | VInt z => negb (z =? 0)%Z
  | VBool b => b
  end.

(** [str(x)]. *)
Definition str (v : value) : string :=
  match v with
  | VNone => "None"
  | VStr s => s
  | VInt z => NilZero.string_of_int (Z.to_int z)
  | VBool true => "True"
  | VBool false => "False"
  end.

(** [delimiter.join(parts)]. *)
Fixpoint join (delimiter : string) (parts : list string) : string :=
  match parts with
  | [] => ""
  | [p] => p
  | p :: t => p ++ delimiter ++ join delimiter t
  end.

(** A string is a sequence of code points; the model keeps the code
    points below 256, one [ascii] each.  [is_space] is the class [\s] of
    [re] on [str] patterns, restricted to that range. *)
Definition is_space (c : ascii) : bool :=
  let n := N_of_ascii c in
  (((9 <=? n) && (n <=? 13)) || ((28 <=? n) && (n <=? 32))
   || (n =? 133) || (n =? 160))%N.

(** [re.sub("\s+", "", s)]: every maximal run of white space is replaced
    by the empty string, which deletes every white-space character. *)
Fixpoint re_sub_spaces (s : string) : string :=
  match s with
  | EmptyString => EmptyString
  | String c t => if is_space c then re_sub_spaces t
                  else String c (re_sub_spaces t)
  end.

(** The characters of a string, each as a string of length one. *)
Fixpoint chars (s : string) : list string :=
  match s with
  | EmptyString => []
  | String c t => String c EmptyString :: chars t
  end.

(** [s.split(sep)] for a separator of one character. *)
Fixpoint split_on (sep : ascii) (s : string) : list string :=
  match s with
  | EmptyString => [EmptyString]
  | String c t =>
      if Ascii.eqb c sep then EmptyString :: split_on sep t
      else match split_on sep t with
           | [] => [String c EmptyString]
           | w :: ws => String c w :: ws
           end
  end.

(** [txt.split(" ")] on an arbitrary object: only [str] has the method. *)
Definition split (txt : value) (sep : ascii) : result (list string) :=
  match txt with
  | VStr s => Ok (split_on sep s)
  | _ => Raise AttributeError
  end.

(** [x.trim()]: [str] has no attribute [trim] (the method is [strip]), so
    the attribute lookup raises. *)
Definition trim (x : string) : result string := Raise AttributeError.

(** ["{} {}".format(a, b)]. *)
Definition format2 (a b : value) : string := str a ++ " " ++ str b.

(** [s.encode('utf-8')] for code points below 256. *)
Definition encode_char (c : ascii) : list Byte.byte :=
  let n := N_of_ascii c in
  if (n <? 128)%N then [byte_of_ascii c]
  else [byte_of_ascii (ascii_of_N (192 + n / 64));
        byte_of_ascii (ascii_of_N (128 + n mod 64))].

Fixpoint encode_utf8 (s : string) : list Byte.byte :=
  match s with
  | EmptyString => []
  | String c t => encode_char c ++ encode_utf8 t
  end.

(** A list comprehension [[x for x in xs if cond(x)]] whose condition
    may raise. *)
Fixpoint comprehension {A : Type} (cond : A -> result bool) (xs : list A)
  : result (list A) :=
  match xs with
  | [] => Ok []
  | x :: t =>
      bind (cond x) (fun keep =>
      bind (comprehension cond t) (fun rest =>
      Ok (if keep then x :: rest else rest)))
  end.

End Py.

Import Py.

Notation "x <- m ;; k" := (bind m (fun x => k))
  (at level 61, m at next level, right associativity).

(* ================================================================== *)
(** ** The libraries the module imports *)
(* ================================================================== *)

(** [datasketch]: the [MinHash] sketch, the [MinHashLSH] index and its
    insertion session, as operations on their states.  [MinHash_new
    num_perm seed] is [MinHash(num_perm, seed)].  The constructor of the
    index and the insert of a session may raise: the constructor on a
    threshold, a number of permutations or a storage configuration it does
    not accept, the insert on a key the index already holds; an insert that
    raises leaves the session as it was. *)
Class Datasketch : Type := {
  MinHash : Type;
  MinHash_new : Z -> Z -> MinHash;
  MinHash_update : MinHash -> list Byte.byte -> MinHash;
  MinHashLSH : Type;
  MinHashLSH_new : Q -> Z -> option dict -> result MinHashLSH;
  Session : Type;
  insertion_session : MinHashLSH -> Session;
  session_insert : Session -> value -> MinHash -> result Session;
  session_close : Session -> MinHashLSH;
  lsh_query : MinHashLSH -> MinHash -> list value
}.

(** [nltk.tokenize.word_tokenize]. *)
Class Nltk : Type := {
  word_tokenize : string -> list string
}.

(** Modelled from the spec: [PGRecordIterator] ([sql.record.pgrecord_iterator])
    is not among the sources.  It is the pull-based reader of section 6: it
    streams the rows of a query through a named cursor, is its own iterator,
    and can be re-opened under another cursor name, which starts again at the
    first row.  [pg_remaining] is the position of the open cursor. *)
Record PGRecordIterator : Type := mkPG {
  pg_rows : list dict;
  pg_itersize : Z;
  pg_name : string;
  pg_remaining : list dict
}.

(** [iter(it)]: opens the cursor. *)
Definition pg_iter (it : PGRecordIterator) : PGRecordIterator :=
  mkPG (pg_rows it) (pg_itersize it) (pg_name it) (pg_rows it).

(** [it.close_cursor()]. *)
Definition close_cursor (it : PGRecordIterator) : PGRecordIterator :=
  mkPG (pg_rows it) (pg_itersize it) (pg_name it) [].

(** [it.set_cursor_name(name)]. *)
Definition set_cursor_name (name : string) (it : PGRecordIterator)
  : PGRecordIterator :=
  mkPG (pg_rows it) (pg_itersize it) name (pg_remaining it).

(** [next(it)]: the next row, or [StopIteration]. *)
Definition pg_next (it : PGRecordIterator)
  : PGRecordIterator * result dict :=
  match pg_remaining it with
  | [] => (it, Raise StopIteration)
  | r :: rest => (mkPG (pg_rows it) (pg_itersize it) (pg_name it) rest, Ok r)
  end.

(* ================================================================== *)
(** ** class BlockingRecordIterator *)
(* ================================================================== *)

(** The attributes of the object.  [source] stands for the pair
    ([conn], [query]): the rows the query returns.  [record_it] is the same
    object as [curr_it] and is not kept apart; [hashes] is never read. *)
Record BlockingRecordIterator `{Datasketch} : Type := mkSelf {
  id_name : string;
  cursor_name : string;
  source : list dict;
  session_size : Z;
  threshold : Q;
  storage_config : option dict;
  lsh : option MinHashLSH;
  is_text : bool;
  is_letter : bool;
  num_perm : Z;
  curr_it : option PGRecordIterator
}.

(** [__init__], with the keyword arguments given in full; the defaults are
    [is_letter=True], [is_text=False], [session_size=2000], [num_perm=128]. *)
Definition init `{Datasketch} (id_name cursor_name : string)
  (source : list dict) (threshold : Q) (storage_config : option dict)
  (is_letter is_text : bool) (session_size num_perm : Z)
  : BlockingRecordIterator :=
  mkSelf _ id_name cursor_name source session_size threshold storage_config
         None is_text is_letter num_perm None.

Definition set_lsh `{Datasketch} (self : BlockingRecordIterator)
  (l : option MinHashLSH) : BlockingRecordIterator :=
  mkSelf _ (id_name self) (cursor_name self) (source self) (session_size self)
         (threshold self) (storage_config self) l (is_text self)
         (is_letter self) (num_perm self) (curr_it self).

Definition set_curr_it `{Datasketch} (self : BlockingRecordIterator)
  (it : option PGRecordIterator) : BlockingRecordIterator :=
  mkSelf _ (id_name self) (cursor_name self) (source self) (session_size self)
         (threshold self) (storage_config self) (lsh self) (is_text self)
         (is_letter self) (num_perm self) it.

(** The loop of [_record_to_string]:
    [for k in keys: val = r[k]; if val: vals.append(val)]. *)
Fixpoint collect_vals (r : dict) (ks : list string) (vals : list value)
  : result (list value) :=
  match ks with
  | [] => Ok vals
  | k :: t =>
      val <- getitem r k ;;
      collect_vals r t (if truthy val then vals ++ [val] else vals)
  end.

(** [_record_to_string(r, delimiter)]. *)
Definition record_to_string `{Datasketch} (self : BlockingRecordIterator)
  (r : dict) (delimiter : string) : result string :=
  let ks := keys r in
  let ks := if contains (id_name self) ks
            then pop_first (id_name self) ks else ks in
  vals <- collect_vals r ks [] ;;
  Ok (join delimiter (map str vals)).

(** The loop of [_get_record_text]. *)
Fixpoint record_text_loop (rc : dict) (ks : list string) (txt : value)
  : result value :=
  match ks with
  | [] => Ok txt
  | key :: t =>
      match txt with
      | VNone =>
          tval <- getitem rc key ;;
          record_text_loop rc t (VStr (format2 txt tval))
      | _ =>
          v <- getitem rc key ;;
          record_text_loop rc t v
      end
  end.

(** [_get_record_text(r)]. *)
Definition get_record_text `{Datasketch} (self : BlockingRecordIterator)
  (r : dict) : result value :=
  let rc := r in
  let rc := if contains (id_name self) (keys rc)
            then dict_pop (id_name self) rc else rc in
  record_text_loop rc (keys rc) VNone.

(** [_split_str_to_chars(val)]. *)
Definition split_str_to_chars (val : string) : list string :=
  if negb (String.eqb val "") then chars val else [].

(** [_split_record_words(val)]. *)
Definition split_record_words `{Datasketch} (self : BlockingRecordIterator)
  (val : dict) : result (list string) :=
  rstr <- record_to_string self val " " ;;
  Ok (split_on " " rstr).

(** [_create_word_shingles(val)]. *)
Definition create_word_shingles `{Nltk} (val : string) : list string :=
  word_tokenize val.

(** [_get_shingle(r)]. *)
Definition get_shingle `{Datasketch} (self : BlockingRecordIterator)
  (r : dict) : result (list string) :=
  if is_letter self then
    rstr <- record_to_string self r "" ;;
    let rstr := re_sub_spaces rstr in
    Ok (split_str_to_chars rstr)
  else if is_text self then
    txt <- get_record_text self r ;;
    parts <- split txt " " ;;
    comprehension
      (fun x => t <- trim x ;; Ok (0 <? String.length t)%nat) parts
  else
    split_record_words self r.

(** [_get_min_hash(r)]; [MinHash(num_perm)] takes the default seed 1. *)
Definition get_min_hash `{Datasketch} (self : BlockingRecordIterator)
  (r : dict) : result MinHash :=
  cset <- get_shingle self r ;;
  Ok (fold_left (fun m c => MinHash_update m (encode_utf8 c)) cset
                (MinHash_new (num_perm self) 1)).

(** The [while] loop of [_create_hashes], from the cursor position [it],
    the counter [i] and the open session.  It returns the cursor position,
    the counter, the session and either the final [run] flag or the
    exception that left the loop. *)
Fixpoint create_hashes_loop `{Datasketch} (self : BlockingRecordIterator)
  (it : list dict) (i : Z) (session : Session)
  : list dict * Z * Session * result bool :=
  if (i <? session_size self)%Z then
    match it with
    | [] => (it, i, session, Ok false)
    | r :: it' =>
        if contains (id_name self) (keys r) then
          match (key_val <- getitem r (id_name self) ;;
                 m <- get_min_hash self r ;;
                 session_insert session key_val m) with
          | Ok session' => create_hashes_loop self it' (i + 1) session'
          | Raise StopIteration => (it', i, session, Ok false)
          | Raise e => (it', i, session, Raise e)
          end
        else create_hashes_loop self it' (i + 1) session
    end
  else (it, i, session, Ok true).

(** [_create_hashes(it)].  The session is closed on every way out of the
    [with] block. *)
Definition create_hashes `{Datasketch} (self : BlockingRecordIterator)
  (it : PGRecordIterator)
  : BlockingRecordIterator * PGRecordIterator * result bool :=
  match lsh self with
  | None => (self, it, Raise AttributeError)
  | Some l =>
      let '(rest, _, session, run) :=
        create_hashes_loop self (pg_remaining it) 0 (insertion_session l) in
      (set_lsh self (Some (session_close session)),
       mkPG (pg_rows it) (pg_itersize it) (pg_name it) rest, run)
  end.

(** Truth value of a storage configuration ([None] or a dict). *)
Definition truthy_config (c : option dict) : bool :=
  match c with
  | None => false
  | Some [] => false
  | Some (_ :: _) => true
  end.

(** [setup_lsh()].  An exception of the constructor leaves [__lsh]
    unassigned. *)
Definition setup_lsh `{Datasketch} (self : BlockingRecordIterator)
  : BlockingRecordIterator * result unit :=
  if truthy_config (storage_config self) then
    match MinHashLSH_new (threshold self) (num_perm self)
                         (storage_config self) with
    | Ok l => (set_lsh self (Some l), Ok tt)
    | Raise e => (self, Raise e)
    end
  else (self, Raise ValueError).

(** [get_iter()]: the reader and its iterator are one object. *)
Definition get_iter `{Datasketch} (self : BlockingRecordIterator)
  : PGRecordIterator :=
  pg_iter (mkPG (source self) (session_size self) (cursor_name self) []).

(** [__iter__()]. *)
Definition iter `{Datasketch} (self : BlockingRecordIterator)
  : BlockingRecordIterator * result unit :=
  match curr_it self with
  | Some _ => (self, Ok tt)
  | None =>
      match setup_lsh self with
      | (self, Raise e) => (self, Raise e)
      | (self, Ok _) =>
          let it := get_iter self in
          match create_hashes self it with
          | (self, _, Raise e) => (self, Raise e)
          | (self, it, Ok _) =>
              let it := close_cursor it in
              let cname := cursor_name self ++ "_matches" in
              let it := set_cursor_name cname it in
              let it := pg_iter it in
              (set_curr_it self (Some it), Ok tt)
          end
      end
  end.

(** [__next__()].  [next(self.__curr_it, None)] gives [None] at the end of
    the stream; [if nrow:] then takes the [else] branch, as it does for a
    row that is an empty dict. *)
Definition next `{Datasketch} (self : BlockingRecordIterator)
  : BlockingRecordIterator * result (dict * list value) :=
  match curr_it self with
  | None => (self, Raise TypeError)
  | Some it =>
      match pg_next it with
      | (_, Raise _) => (self, Raise StopIteration)
      | (it', Ok nrow) =>
          let self := set_curr_it self (Some it') in
          match nrow with
          | _ :: _ =>
              match get_min_hash self nrow with
              | Raise e => (self, Raise e)
              | Ok m =>
                  match lsh self with
                  | None => (self, Raise AttributeError)
                  | Some l => (self, Ok (nrow, lsh_query l m))
                  end
              end
          | [] => (self, Raise StopIteration)
          end
      end
  end.

(** [n] successive calls of [__next__], with their outcomes in order. *)
Fixpoint pulls `{Datasketch} (n : nat) (self : BlockingRecordIterator)
  : BlockingRecordIterator * list (result (dict * list value)) :=
  match n with
  | O => (self, [])
  | S n' =>
      let (self1, out) := next self in
      let (self2, outs) := pulls n' self1 in
      (self2, out :: outs)
  end.

(** The method calls that change the object, as a relation on its states;
    [calls] is any sequence of them. *)
Inductive call `{Datasketch} : BlockingRecordIterator -> BlockingRecordIterator -> Prop :=
| call_setup_lsh self : call self (fst (setup_lsh self))
| call_create_hashes self it : call self (fst (fst (create_hashes self it)))
| call_iter self : call self (fst (iter self))
| call_next self : call self (fst (next self)).

Inductive calls `{Datasketch} : BlockingRecordIterator -> BlockingRecordIterator -> Prop :=
| calls_nil self : calls self self
| calls_cons self self1 self2 :
    call self self1 -> calls self1 self2 -> calls self self2.

(* ================================================================== *)
(** ** Vocabulary of the specification *)
(* ================================================================== *)

(** The three extraction strategies of section 4.1. *)
Inductive strategy : Type :=
| CharacterShingles
| TokenizedShingles
| WordShingles.

(** The branch of [_get_shingle] that belongs to each strategy. *)
Definition extract `{Datasketch} (self : BlockingRecordIterator)
  (s : strategy) (r : dict) : result (list string) :=
  match s with
  | CharacterShingles =>
      rstr <- record_to_string self r "" ;;
      Ok (split_str_to_chars (re_sub_spaces rstr))
  | TokenizedShingles =>
      txt <- get_record_text self r ;;
      parts <- split txt " " ;;
      comprehension
        (fun x => t <- trim x ;; Ok (0 <? String.length t)%nat) parts
  | WordShingles => split_record_words self r
  end.

(** The strategy the flags resolve to: [if] / [elif] / [else]. *)
Definition selected `{Datasketch} (self : BlockingRecordIterator) : strategy :=
  if is_letter self then CharacterShingles
  else if is_text self then TokenizedShingles
  else WordShingles.

(** The probe record on which the three branches differ, whatever the
    identifier field is called. *)
Definition probe : dict := [("a", VStr "ab")].

(** The values of the fields other than the identifier, in order. *)
Definition non_id_values (id : string) (r : dict) : list value :=
  map snd (filter (fun kv => negb (String.eqb (fst kv) id)) r).

(** Character shingles in the words of section 4.1: every non-identifier
    value cast to string, concatenated without delimiter, white space
    stripped, the characters taken one by one. *)
Definition spec_character_shingles (id : string) (r : dict) : list string :=
  chars (re_sub_spaces (join "" (map str (non_id_values id r)))).

(** Tokenized shingles in the words of section 4.1: the non-identifier
    values joined by single spaces, tokenized, empty tokens dropped. *)
Definition spec_tokenized_shingles `{Nltk} (id : string) (r : dict)
  : list string :=
  filter (fun x => negb (String.eqb x ""))
         (create_word_shingles (join " " (map str (non_id_values id r)))).

(** A field that is [None], empty or made of white space only. *)
Definition blank_or_none (v : value) : bool :=
  match v with
  | VNone => true
  | VStr s => String.eqb (re_sub_spaces s) ""
  | _ => false
  end.

(** The record has the identifier field ([id_name in r.keys()]). *)
Definition has_id `{Datasketch} (self : BlockingRecordIterator) (r : dict)
  : bool :=
  contains (id_name self) (keys r).


(** What a query-phase pull is to yield for the row [r]. *)
Definition query_pair `{Datasketch} (self : BlockingRecordIterator)
  (l : MinHashLSH) (r : dict) : result (dict * list value) :=
  m <- get_min_hash self r ;;
  Ok (r, lsh_query l m).

(** The attributes a signature is computed from. *)
Definition signing_config `{Datasketch} (self : BlockingRecordIterator)
  : string * bool * bool * Z :=
  (id_name self, is_letter self, is_text self, num_perm self).

(** The character [c] occurs in [s]. *)
Fixpoint mentions (c : ascii) (s : string) : bool :=
  match s with
  | EmptyString => false
  | String x t => Ascii.eqb x c || mentions c t
  end.

(** One turn of the loop of [_get_record_text] on the value of the next
    field. *)
Definition text_step (txt v : value) : value :=
  match txt with
  | VNone => VStr (format2 txt v)
  | _ => v
  end.

(** The constructor arguments that describe the source and the index. *)
Definition parameters `{Datasketch} (self : BlockingRecordIterator)
  : string * list dict * Z * Q * option dict :=
  (cursor_name self, source self, session_size self, threshold self,
   storage_config self).

(** No storage configuration: [None], or a configuration with no entry. *)
Definition no_storage (c : option dict) : Prop :=
  c = None \/ c = Some [].

(** The flags do not select the tokenized branch. *)
Definition untokenized `{Datasketch} (self : BlockingRecordIterator) : Prop :=
  is_letter self = true \/ is_text self = false.

(* ================================================================== *)
(** ** A small instance of the libraries, to run the methods *)
(* ================================================================== *)

Module Demo.

Definition max_hash : Z := 4294967295.
Definition mersenne_prime : Z := 2305843009213693951.

Definition hash_bytes (b : list Byte.byte) : Z :=
  fold_left (fun h x => (h * 31 + Z.of_N (Byte.to_N x)) mod 4294967296) b 7.

Definition permute (seed i hv : Z) : Z :=
  Z.land (((2 * (seed + i) + 1) * hv + (seed + i)) mod mersenne_prime)
         max_hash.

Fixpoint update_slots (seed i hv : Z) (slots : list Z) : list Z :=
  match slots with
  | [] => []
  | s :: t => Z.min s (permute seed i hv) :: update_slots seed (i + 1) hv t
  end.

Definition sketch : Type := Z * list Z.

Definition sketch_new (num_perm seed : Z) : sketch :=
  (seed, repeat max_hash (Z.to_nat num_perm)).

Definition sketch_update (m : sketch) (b : list Byte.byte) : sketch :=
  (fst m, update_slots (fst m) 0 (hash_bytes b) (snd m)).

Fixpoint share_slot (a b : list Z) : bool :=
  match a, b with
  | x :: a', y :: b' => (x =? y)%Z || share_slot a' b'
  | _, _ => false
  end.

Definition index : Type := list (value * list Z).

(** Keys as a Python dict compares them: [True] and [False] are the
    integers 1 and 0. *)
Definition key_eqb (a b : value) : bool :=
  match a, b with
  | VNone, VNone => true
  | VStr x, VStr y => String.eqb x y
  | VInt x, VInt y => (x =? y)%Z
  | VInt x, VBool y => (x =? (if y then 1 else 0))%Z
  | VBool x, VInt y => ((if x then 1 else 0) =? y)%Z
  | VBool x, VBool y => Bool.eqb x y
  | _, _ => false
  end.

(** The constructor refuses a threshold outside [0, 1], fewer than two
    permutations, a configuration without [type], a [redis] type without
    its [redis] entry and any other type than [dict] and [redis]. *)
Definition index_new (threshold : Q) (num_perm : Z)
  (storage_config : option dict) : result index :=
  if negb (Qle_bool 0 threshold && Qle_bool threshold 1) then Raise ValueError
  else if (num_perm <? 2)%Z then Raise ValueError
  else match storage_config with
       | None => Ok []
       | Some c =>
           tp <- getitem c "type" ;;
           if key_eqb tp (VStr "dict") then Ok []
           else if key_eqb tp (VStr "redis") then
             _ <- getitem c "redis" ;; Ok []
           else Raise ValueError
       end.

(** The insert refuses a key the index already holds. *)
Definition index_insert (s : index) (k : value) (m : sketch)
  : result index :=
  if existsb (fun e => key_eqb (fst e) k) s then Raise ValueError
  else Ok (s ++ [(k, snd m)])%list.

Definition index_query (l : index) (m : sketch) : list value :=
  map fst (filter (fun e => share_slot (snd e) (snd m)) l).

#[local] Instance lib : Datasketch := {|
  MinHash := sketch;
  MinHash_new := sketch_new;
  MinHash_update := sketch_update;
  MinHashLSH := index;
  MinHashLSH_new := index_new;
  Session := index;
  insertion_session := fun l => l;
  session_insert := index_insert;
  session_close := fun s => s;
  lsh_query := index_query
|}.

#[local] Instance tok : Nltk := {|
  word_tokenize := split_on " "
|}.

Definition alice : dict := [("id", VInt 1); ("name", VStr "alice smith")].
Definition alyce : dict := [("id", VInt 2); ("name", VStr "alice smyth")].
Definition bob : dict := [("id", VInt 3); ("name", VStr "bob jones")].
Definition carol : dict := [("name", VStr "carol king")].
Definition stock : dict := [("id", VInt 4); ("qty", VInt 0)].
Definition hollow : dict :=
  [("id", VInt 5); ("name", VStr "  "); ("note", VNone); ("memo", VStr "")].

Definition people : list dict := [alice; alyce; bob].

(** The in-memory storage. *)
Definition in_memory : option dict := Some [("type", VStr "dict")].

(** A [redis] storage without the entry that describes the server. *)
Definition redis : option dict := Some [("type", VStr "redis")].

(** Character shingles, the default flags. *)
Definition by_letter : BlockingRecordIterator :=
  init "id" "cur" people (1 # 2) in_memory true false 3 4.

(** Neither flag set. *)
Definition by_word : BlockingRecordIterator :=
  init "id" "cur" people (1 # 2) in_memory false false 3 4.

(** The tokenized flag alone. *)
Definition by_text : BlockingRecordIterator :=
  init "id" "cur" people (1 # 2) in_memory false true 3 4.

(** Both flags set. *)
Definition by_both : BlockingRecordIterator :=
  init "id" "cur" people (1 # 2) redis true true 3 4.

(** No storage configuration. *)
Definition unstored : BlockingRecordIterator :=
  init "id" "cur" people (1 # 2) None true false 3 4.

(** A session of two records over a source that starts with a record
    without identifier. *)
Definition short_session : BlockingRecordIterator :=
  init "id" "cur" [carol; alice; bob] (1 # 2) in_memory true false 2 4.

(** [by_letter] after [__iter__]. *)
Definition querying : BlockingRecordIterator := fst (iter by_letter).

(** The index [querying] holds. *)
Definition built : index :=
  match lsh querying with
  | Some l => l
  | None => []
  end.


(** An object in the query phase whose cursor stands before [carol]. *)
Definition at_carol : BlockingRecordIterator :=
  set_curr_it querying (Some (mkPG [carol; bob] 3 "cur_matches" [carol; bob])).

(** Three fields besides the identifier. *)
Definition trio : dict :=
  [("id", VInt 7); ("first", VStr "ann"); ("mid", VStr "b");
   ("last", VStr "lee")].


(** The values of [alice] under other field names, identifier last. *)
Definition alias : dict := [("full", VStr "alice smith"); ("id", VInt 9)].

(** The tokenized flag over a source without identifiers. *)
Definition text_no_ids : BlockingRecordIterator :=
  init "id" "cur" [carol] (1 # 2) in_memory false true 3 4.

(** A session size of zero, after [setup_lsh]. *)
Definition no_budget : BlockingRecordIterator :=
  fst (setup_lsh (init "id" "cur" people (1 # 2) in_memory true false 0 4)).

(** An object in the query phase whose cursor stands before an empty row. *)
Definition at_gap : BlockingRecordIterator :=
  set_curr_it querying (Some (mkPG [[]; bob] 3 "cur_matches" [[]; bob])).

(** [by_text] in the query phase. *)
Definition text_querying : BlockingRecordIterator :=
  set_curr_it by_text (Some (mkPG people 3 "cur_matches" people)).

(** The storage configuration [redis]. *)
Definition by_redis : BlockingRecordIterator :=
  init "id" "cur" people (1 # 2) redis true false 3 4.

(** A threshold above 1. *)
Definition by_five : BlockingRecordIterator :=
  init "id" "cur" people (5 # 1) in_memory true false 3 4.




(** [by_text] after [setup_lsh]. *)
Definition text_ready : BlockingRecordIterator := fst (setup_lsh by_text).

(** An object with the tokenized flag in the query phase, its cursor
    before [carol]. *)
Definition text_at_carol : BlockingRecordIterator :=
  set_curr_it text_ready (Some (mkPG [carol] 3 "cur_matches" [carol])).

End Demo.

(* ================================================================== *)
(** ** Dictionaries and strings *)
(* ================================================================== *)

Lemma contains_In (k : string) (ks : list string) :
  contains k ks = true <-> In k ks.
Proof.
  induction ks as [|x t IH]; simpl.
  - split; [discriminate | tauto].
  - destruct (String.eqb x k) eqn:E.
    + apply String.eqb_eq in E. split; auto.
    + apply String.eqb_neq in E. rewrite IH. split; [auto | intros [?|?]; congruence].
Qed.


Lemma getitem_in (d : dict) (k : string) :
  In k (keys d) -> exists v, getitem d k = Ok v.
Proof.
  induction d as [|[x v] t IH]; simpl; [tauto|].
  intros HI. destruct (String.eqb x k) eqn:E; [eauto|].
  apply String.eqb_neq in E. destruct HI as [->|HI]; [congruence | auto].
Qed.


Lemma getitem_wf (d : dict) (k : string) (v : value) :
  wf_dict d -> In (k, v) d -> getitem d k = Ok v.
Proof.
  unfold wf_dict, keys.
  induction d as [|[x w] t IH]; simpl; [tauto|].
  intros HN HI. inversion HN as [|? ? Hx Ht]; subst.
  destruct HI as [HE|HI].
  - inversion HE; subst. now rewrite String.eqb_refl.
  - destruct (String.eqb x k) eqn:E.
    + apply String.eqb_eq in E. subst x.
      exfalso. apply Hx. change k with (fst (k, v)). now apply in_map.
    + auto.
Qed.

Lemma pop_first_absent (k : string) (ks : list string) :
  contains k ks = false -> pop_first k ks = ks.
Proof.
  induction ks as [|x t IH]; simpl; [reflexivity|].
  destruct (String.eqb x k); [discriminate|].
  intros E. now rewrite IH.
Qed.

Lemma pop_first_incl (k x : string) (ks : list string) :
  In x (pop_first k ks) -> In x ks.
Proof.
  induction ks as [|y t IH]; simpl; [tauto|].
  destruct (String.eqb y k); simpl; intuition.
Qed.


Lemma filter_other_absent (k : string) (d : dict) :
  ~ In k (keys d) ->
  filter (fun kv => negb (String.eqb (fst kv) k)) d = d.
Proof.
  induction d as [|[x v] t IH]; simpl; [reflexivity|].
  intros HN. destruct (String.eqb x k) eqn:E; simpl.
  - apply String.eqb_eq in E. tauto.
  - rewrite IH; tauto.
Qed.

Lemma pop_first_filter (k : string) (d : dict) :
  wf_dict d ->
  pop_first k (keys d) =
  keys (filter (fun kv => negb (String.eqb (fst kv) k)) d).
Proof.
  unfold wf_dict.
  induction d as [|[x v] t IH]; simpl; [reflexivity|].
  intros HN. inversion HN as [|? ? Hx Ht]; subst.
  destruct (String.eqb x k) eqn:E; simpl.
  - apply String.eqb_eq in E. subst x.
    now rewrite filter_other_absent.
  - now rewrite IH.
Qed.

Lemma append_empty_r (s : string) : (s ++ "")%string = s.
Proof.
  induction s as [|c t IH]; simpl; [reflexivity | now rewrite IH].
Qed.

Lemma join_empty_cons (p : string) (t : list string) :
  join "" (p :: t) = (p ++ join "" t)%string.
Proof.
  destruct t; simpl; [now rewrite append_empty_r | reflexivity].
Qed.

Lemma re_sub_spaces_app (a b : string) :
  re_sub_spaces (a ++ b) = (re_sub_spaces a ++ re_sub_spaces b)%string.
Proof.
  induction a as [|c t IH]; simpl; [reflexivity|].
  destruct (is_space c); simpl; now rewrite IH.
Qed.

Lemma split_str_to_chars_chars (s : string) : split_str_to_chars s = chars s.
Proof.
  destruct s; reflexivity.
Qed.

Lemma split_on_cons (sep : ascii) (s : string) :
  exists w ws, split_on sep s = w :: ws.
Proof.
  induction s as [|c t [w [ws IH]]]; simpl; [eauto|].
  destruct (Ascii.eqb c sep); [eauto|]. rewrite IH. eauto.
Qed.

Lemma blank_values_strip (vs : list value) :
  forallb blank_or_none vs = true ->
  re_sub_spaces (join "" (map str (filter truthy vs))) = "".
Proof.
  induction vs as [|v t IH]; [reflexivity|].
  cbn [forallb filter]. intros HB.
  apply andb_prop in HB. destruct HB as [Hv Ht].
  destruct (truthy v) eqn:T; [|auto].
  cbn [map]. rewrite join_empty_cons, re_sub_spaces_app, IH by assumption.
  destruct v as [|s|z|b]; simpl in *; try discriminate.
  apply String.eqb_eq in Hv. now rewrite Hv.
Qed.

(* ================================================================== *)
(** ** Shingle extraction *)
(* ================================================================== *)

Section Shingles.

Context `{D : Datasketch}.
Implicit Types (self : BlockingRecordIterator) (r : dict).

Lemma collect_vals_items (r l : dict) (acc : list value) :
  (forall kv, In kv l -> getitem r (fst kv) = Ok (snd kv)) ->
  collect_vals r (keys l) acc = Ok (acc ++ filter truthy (map snd l))%list.
Proof.
  revert acc. induction l as [|[k v] t IH]; intros acc HG; simpl.
  - now rewrite app_nil_r.
  - pose proof (HG (k, v) (or_introl eq_refl)) as Hk. simpl in Hk.
    rewrite Hk. simpl.
    rewrite IH by (intros kv HI; apply HG; now right).
    destruct (truthy v); [now rewrite <- app_assoc | reflexivity].
Qed.

Lemma collect_vals_total (r : dict) (ks : list string) (acc : list value) :
  (forall k, In k ks -> In k (keys r)) ->
  exists vs, collect_vals r ks acc = Ok vs.
Proof.
  revert acc. induction ks as [|k t IH]; intros acc HK; simpl; [eauto|].
  destruct (getitem_in r k) as [v ->]; [apply HK; now left|]. simpl.
  apply IH. intros x HI. apply HK. now right.
Qed.

Lemma record_keys_present self r (k : string) :
  In k (if contains (id_name self) (keys r)
        then pop_first (id_name self) (keys r) else keys r) ->
  In k (keys r).
Proof.
  destruct (contains (id_name self) (keys r)); [apply pop_first_incl | auto].
Qed.

Lemma record_to_string_total self r (delimiter : string) :
  exists s, record_to_string self r delimiter = Ok s.
Proof.
  unfold record_to_string.
  destruct (collect_vals_total r
              (if contains (id_name self) (keys r)
               then pop_first (id_name self) (keys r) else keys r) [])
    as [vs ->]; [apply record_keys_present|].
  simpl. eauto.
Qed.

Lemma record_to_string_wf self r (delimiter : string) :
  wf_dict r ->
  record_to_string self r delimiter =
  Ok (join delimiter
        (map str (filter truthy (non_id_values (id_name self) r)))).
Proof.
  intros HW. unfold record_to_string, non_id_values.
  assert (HK : (if contains (id_name self) (keys r)
                then pop_first (id_name self) (keys r) else keys r)
               = keys (filter (fun kv => negb (String.eqb (fst kv) (id_name self))) r)).
  { rewrite <- pop_first_filter by assumption.
    destruct (contains (id_name self) (keys r)) eqn:E;
      [reflexivity | now rewrite pop_first_absent]. }
  rewrite HK, collect_vals_items.
  - reflexivity.
  - intros [k v] HI. apply filter_In in HI. destruct HI as [HI _].
    now apply getitem_wf.
Qed.

Lemma record_text_loop_total (rc : dict) (ks : list string) (txt : value) :
  (forall k, In k ks -> In k (keys rc)) ->
  exists v, record_text_loop rc ks txt = Ok v.
Proof.
  revert txt. induction ks as [|k t IH]; intros txt HK; simpl; [eauto|].
  destruct (getitem_in rc k) as [v Hv]; [apply HK; now left|].
  assert (HT : forall x, In x t -> In x (keys rc)) by (intros x HI; apply HK; now right).
  destruct txt; rewrite Hv; simpl; now apply IH.
Qed.

Lemma get_record_text_total self r :
  exists v, get_record_text self r = Ok v.
Proof.
  unfold get_record_text. apply record_text_loop_total. auto.
Qed.

Lemma tokenized_branch_raises self r :
  extract self TokenizedShingles r = Raise AttributeError.
Proof.
  unfold extract.
  destruct (get_record_text_total self r) as [v ->]. simpl.
  destruct v as [|s|z|b]; simpl; try reflexivity.
  destruct (split_on_cons " " s) as [w [ws ->]]. reflexivity.
Qed.

Lemma word_branch_total self r :
  exists ws, extract self WordShingles r = Ok ws.
Proof.
  unfold extract, split_record_words.
  destruct (record_to_string_total self r " ") as [s ->]. simpl. eauto.
Qed.

Lemma character_branch_total self r :
  exists cs, extract self CharacterShingles r = Ok cs.
Proof.
  unfold extract.
  destruct (record_to_string_total self r "") as [s ->]. simpl. eauto.
Qed.

Lemma get_shingle_selected self r :
  get_shingle self r = extract self (selected self) r.
Proof.
  unfold get_shingle, selected, extract.
  destruct (is_letter self); [reflexivity|].
  destruct (is_text self); reflexivity.
Qed.

Lemma get_shingle_untokenized self r :
  untokenized self -> exists cs, get_shingle self r = Ok cs.
Proof.
  intros HU. rewrite get_shingle_selected. unfold selected.
  destruct (is_letter self) eqn:L; [apply character_branch_total|].
  destruct HU as [HU|HU]; [congruence|]. rewrite HU.
  apply word_branch_total.
Qed.

Lemma probe_character self :
  extract self CharacterShingles probe = Ok [] \/
  extract self CharacterShingles probe = Ok ["a"; "b"].
Proof.
  unfold extract, record_to_string, probe. cbn -[String.eqb].
  destruct (String.eqb "a" (id_name self)); cbn; rewrite ?String.eqb_refl; auto.
Qed.

Lemma probe_word self :
  extract self WordShingles probe = Ok [""] \/
  extract self WordShingles probe = Ok ["ab"].
Proof.
  unfold extract, split_record_words, record_to_string, probe.
  cbn -[String.eqb].
  destruct (String.eqb "a" (id_name self)); cbn; rewrite ?String.eqb_refl; auto.
Qed.

Lemma extract_injective self (s1 s2 : strategy) :
  extract self s1 probe = extract self s2 probe -> s1 = s2.
Proof.
  pose proof (tokenized_branch_raises self probe) as HT.
  destruct (probe_character self) as [HC|HC];
    destruct (probe_word self) as [HW|HW];
    destruct s1, s2; intros HE; try reflexivity;
    rewrite ?HT, ?HC, ?HW in HE; discriminate.
Qed.

End Shingles.

Section ShingleClaims.

Context `{D : Datasketch}.
Implicit Types (self : BlockingRecordIterator) (r : dict).

(** C5, amended.  Under the character strategy ([is_letter]) the shingles of
    a record are the characters of the string obtained from the
    non-identifier field values that are true in a condition (so [None], the
    empty string, [0] and [False] are left out), each cast to string,
    concatenated without delimiter, with all white space removed.  A record
    whose non-identifier fields are all blank or [None] has no shingle. *)
Theorem character_shingles_of_truthy_fields self r :
  wf_dict r ->
  is_letter self = true ->
  get_shingle self r =
    Ok (chars (re_sub_spaces
          (join "" (map str (filter truthy (non_id_values (id_name self) r))))))
  /\ (forallb blank_or_none (non_id_values (id_name self) r) = true ->
      get_shingle self r = Ok []).
Proof.
  intros HW HL.
  assert (HS : get_shingle self r =
    Ok (chars (re_sub_spaces
          (join "" (map str (filter truthy (non_id_values (id_name self) r))))))).
  { unfold get_shingle. rewrite HL, record_to_string_wf by assumption.
    simpl. now rewrite split_str_to_chars_chars. }
  split; [exact HS|].
  intros HB. rewrite HS, blank_values_strip by assumption. reflexivity.
Qed.

(** C6.  Under the tokenized strategy ([is_text] without [is_letter])
    [_get_shingle] raises [AttributeError] on every record: it yields no
    shingle set, and so not the tokens of the space-joined fields. *)
Theorem tokenized_shingles_raise `{T : Nltk} self r :
  is_letter self = false ->
  is_text self = true ->
  get_shingle self r = Raise AttributeError
  /\ get_shingle self r <> Ok (spec_tokenized_shingles (id_name self) r).
Proof.
  intros HL HT.
  assert (HS : get_shingle self r = Raise AttributeError).
  { rewrite get_shingle_selected. unfold selected. rewrite HL, HT.
    apply tokenized_branch_raises. }
  split; [exact HS | rewrite HS; discriminate].
Qed.

(** C7, amended.  [_get_shingle] never fails with the configuration error
    ([ValueError]); when neither strategy flag is set it falls back to the
    word shingles of [_split_record_words] and returns them. *)
Theorem get_shingle_no_configuration_error self r :
  get_shingle self r <> Raise ValueError
  /\ (is_letter self = false -> is_text self = false ->
      exists ws, split_record_words self r = Ok ws
                 /\ get_shingle self r = Ok ws).
Proof.
  split.
  - rewrite get_shingle_selected.
    destruct (selected self).
    + destruct (character_branch_total self r) as [cs ->]. discriminate.
    + rewrite tokenized_branch_raises. discriminate.
    + destruct (word_branch_total self r) as [ws ->]. discriminate.
  - intros HL HT.
    destruct (word_branch_total self r) as [ws HW]. exists ws.
    split; [exact HW|].
    unfold get_shingle. now rewrite HL, HT.
Qed.

(** C8, amended.  Whatever the two flags are, both set included,
    [_get_shingle] applies exactly one strategy: the character strategy if
    [is_letter] is set, otherwise the tokenized one if [is_text] is set,
    otherwise the word strategy; no other strategy computes the same
    shingles on every record. *)
Theorem exactly_one_strategy_applies self :
  (forall r, get_shingle self r = extract self (selected self) r)
  /\ (forall s, (forall r, get_shingle self r = extract self s r) ->
                s = selected self).
Proof.
  split.
  - intros r. apply get_shingle_selected.
  - intros s HS. apply (extract_injective self).
    rewrite <- HS. apply get_shingle_selected.
Qed.

End ShingleClaims.

Lemma character_shingles_of_truthy_fields_witness :
  get_shingle Demo.by_letter Demo.alice =
    Ok ["a"; "l"; "i"; "c"; "e"; "s"; "m"; "i"; "t"; "h"]
  /\ get_shingle Demo.by_letter Demo.hollow = Ok [].
Proof.
  assert (HA : wf_dict Demo.alice).
  { repeat constructor; simpl; intuition congruence. }
  assert (HH : wf_dict Demo.hollow).
  { repeat constructor; simpl; intuition congruence. }
  split.
  - exact (proj1 (character_shingles_of_truthy_fields
                    Demo.by_letter Demo.alice HA eq_refl)).
  - exact (proj2 (character_shingles_of_truthy_fields
                    Demo.by_letter Demo.hollow HH eq_refl) eq_refl).
Defined.

(** C5 as stated fails on a field that holds [0]: its string ["0"] is not
    among the shingles. *)
Lemma character_shingles_drop_zero :
  spec_character_shingles "id" Demo.stock = ["0"]
  /\ get_shingle Demo.by_letter Demo.stock = Ok []
  /\ get_shingle Demo.by_letter Demo.stock
     <> Ok (spec_character_shingles "id" Demo.stock).
Proof.
  repeat split; try reflexivity. vm_compute. discriminate.
Qed.

Lemma tokenized_shingles_raise_witness :
  get_shingle Demo.by_text Demo.alice = Raise AttributeError
  /\ get_shingle Demo.by_text Demo.alice
     <> Ok (@spec_tokenized_shingles Demo.tok "id" Demo.alice).
Proof.
  exact (@tokenized_shingles_raise Demo.lib Demo.tok Demo.by_text Demo.alice
           eq_refl eq_refl).
Defined.

Lemma get_shingle_no_configuration_error_witness :
  exists ws, split_record_words Demo.by_word Demo.alice = Ok ws
             /\ get_shingle Demo.by_word Demo.alice = Ok ws.
Proof.
  exact (proj2 (get_shingle_no_configuration_error Demo.by_word Demo.alice)
               eq_refl eq_refl).
Defined.

(** C7 as stated fails: with neither flag set, extraction returns the word
    shingles instead of raising. *)
Lemma unset_flags_extract_words :
  is_letter Demo.by_word = false
  /\ is_text Demo.by_word = false
  /\ get_shingle Demo.by_word Demo.alice = Ok ["alice"; "smith"].
Proof.
  repeat split; reflexivity.
Qed.

Lemma exactly_one_strategy_applies_witness :
  CharacterShingles = selected Demo.by_both.
Proof.
  apply (proj2 (exactly_one_strategy_applies Demo.by_both)).
  intros r. reflexivity.
Defined.

(** C8 as stated fails: [__init__] accepts both flags set at once, and
    extraction then runs under that configuration. *)
Lemma both_flags_accepted :
  @init Demo.lib "id" "cur" Demo.people (1 # 2) Demo.redis true true 3 4
    = Demo.by_both
  /\ is_letter Demo.by_both = true
  /\ is_text Demo.by_both = true
  /\ get_shingle Demo.by_both Demo.alice =
       Ok ["a"; "l"; "i"; "c"; "e"; "s"; "m"; "i"; "t"; "h"].
Proof.
  repeat split; reflexivity.
Qed.

(* ================================================================== *)
(** ** Signing and set-up *)
(* ================================================================== *)

Section Signing.

Context `{D : Datasketch}.
Implicit Types (self : BlockingRecordIterator) (r : dict).

Lemma get_min_hash_config self1 self2 r :
  signing_config self1 = signing_config self2 ->
  get_min_hash self1 r = get_min_hash self2 r.
Proof.
  unfold signing_config. intros HC.
  injection HC as Hid Hletter Htext Hperm.
  unfold get_min_hash, get_shingle, split_record_words, record_to_string,
    get_record_text.
  now rewrite Hid, Hletter, Htext, Hperm.
Qed.

(** C3, amended.  Without a storage configuration [setup_lsh] raises its
    configuration error ([ValueError]) and calls nothing.  With one it calls
    the [MinHashLSH] constructor on the configured threshold, [num_perm] and
    storage configuration: the index is what the constructor returns, and
    an exception of the constructor is passed on, the object left as it
    was. *)
Theorem setup_lsh_requires_storage self :
  (no_storage (storage_config self) ->
   setup_lsh self = (self, Raise ValueError))
  /\ (~ no_storage (storage_config self) ->
      forall l,
        MinHashLSH_new (threshold self) (num_perm self) (storage_config self)
          = Ok l ->
        setup_lsh self = (set_lsh self (Some l), Ok tt))
  /\ (~ no_storage (storage_config self) ->
      forall e,
        MinHashLSH_new (threshold self) (num_perm self) (storage_config self)
          = Raise e ->
        setup_lsh self = (self, Raise e)).
Proof.
  unfold setup_lsh, no_storage.
  destruct (storage_config self) as [[|kv c]|]; simpl.
  - split; [reflexivity|]. split; intros HN; exfalso; apply HN; now right.
  - split; [intros [HE|HE]; discriminate|].
    split; intros _ x Hx; now rewrite Hx.
  - split; [reflexivity|]. split; intros HN; exfalso; apply HN; now left.
Qed.

End Signing.

Lemma setup_lsh_requires_storage_witness :
  setup_lsh Demo.unstored = (Demo.unstored, Raise ValueError)
  /\ setup_lsh Demo.by_letter =
     (set_lsh Demo.by_letter (Some (@nil (value * list Z))), Ok tt)
  /\ setup_lsh Demo.by_redis = (Demo.by_redis, Raise KeyError).
Proof.
  assert (HL : ~ no_storage (storage_config Demo.by_letter)).
  { intros [HN|HN]; discriminate. }
  assert (HR : ~ no_storage (storage_config Demo.by_redis)).
  { intros [HN|HN]; discriminate. }
  split; [|split].
  - exact (proj1 (setup_lsh_requires_storage Demo.unstored)
                 (or_introl eq_refl)).
  - exact (proj1 (proj2 (setup_lsh_requires_storage Demo.by_letter))
                 HL (@nil (value * list Z)) eq_refl).
  - exact (proj2 (proj2 (setup_lsh_requires_storage Demo.by_redis))
                 HR KeyError eq_refl).
Defined.

(** C3 as stated fails: with a storage configuration supplied the
    constructor can still refuse it, or refuse the threshold, and
    [setup_lsh] then raises. *)
Lemma supplied_storage_still_raises :
  truthy_config (storage_config Demo.by_redis) = true
  /\ snd (setup_lsh Demo.by_redis) = Raise KeyError
  /\ truthy_config (storage_config Demo.by_five) = true
  /\ snd (setup_lsh Demo.by_five) = Raise ValueError.
Proof.
  repeat split; reflexivity.
Qed.

(* ================================================================== *)
(** ** The build phase *)
(* ================================================================== *)

Section BuildPhase.

Local Close Scope string_scope.
Context `{D : Datasketch}.
Implicit Types (self : BlockingRecordIterator) (r : dict) (it : list dict).

Lemma get_min_hash_untokenized self r :
  untokenized self -> exists m, get_min_hash self r = Ok m.
Proof.
  intros HU. unfold get_min_hash.
  destruct (get_shingle_untokenized self r HU) as [cs ->]. simpl. eauto.
Qed.

Lemma loop_done self it (i : Z) (session : Session) :
  session_size self <= i ->
  create_hashes_loop self it i session = (it, i, session, Ok true).
Proof.
  intros HI. destruct it; simpl;
    destruct (Z.ltb_spec i (session_size self)); try lia; reflexivity.
Qed.

Lemma loop_skip_one self r it (i : Z) (session : Session) :
  i < session_size self ->
  has_id self r = false ->
  create_hashes_loop self (r :: it) i session =
  create_hashes_loop self it (i + 1) session.
Proof.
  unfold has_id. intros HI HR. simpl.
  destruct (Z.ltb_spec i (session_size self)); [|lia].
  now rewrite HR.
Qed.

Lemma loop_skip self (skipped : list dict) it (i : Z) (session : Session) :
  Forall (fun r => has_id self r = false) skipped ->
  i + Z.of_nat (List.length skipped) <= session_size self ->
  create_hashes_loop self (skipped ++ it) i session =
  create_hashes_loop self it (i + Z.of_nat (List.length skipped)) session.
Proof.
  revert i. induction skipped as [|r t IH]; intros i HF HB.
  - simpl. now rewrite Z.add_0_r.
  - inversion HF as [|? ? Hr Ht]; subst.
    cbn [List.length] in *. rewrite Nat2Z.inj_succ in *.
    rewrite <- app_comm_cons, loop_skip_one by (auto; lia).
    rewrite IH by (auto; lia). f_equal. lia.
Qed.





(** C4.  In the build loop, records without the identifier field leave the
    session as it is (nothing is inserted for them) while the counter goes
    up by one for each; when they use up the budget, the loop stops before
    the records that follow. *)
Theorem missing_id_skipped_but_counted self (skipped : list dict) it
    (i : Z) (session : Session) :
  Forall (fun r => has_id self r = false) skipped ->
  i + Z.of_nat (List.length skipped) <= session_size self ->
  create_hashes_loop self (skipped ++ it) i session =
    create_hashes_loop self it (i + Z.of_nat (List.length skipped)) session
  /\ (i + Z.of_nat (List.length skipped) = session_size self ->
      create_hashes_loop self (skipped ++ it) i session =
        (it, session_size self, session, Ok true)).
Proof.
  intros HF HB. split.
  - now apply loop_skip.
  - intros HE. rewrite loop_skip by assumption.
    rewrite HE. apply loop_done. lia.
Qed.


End BuildPhase.

Lemma missing_id_skipped_but_counted_witness :
  create_hashes_loop Demo.short_session
    ([Demo.carol] ++ [Demo.alice; Demo.bob])%list 1 (@nil (value * list Z))
  = ([Demo.alice; Demo.bob], 2, @nil (value * list Z), Ok true).
Proof.
  assert (HF : Forall (fun r => has_id Demo.short_session r = false)
                      [Demo.carol]).
  { constructor; [reflexivity | constructor]. }
  assert (HB : 1 + Z.of_nat (List.length [Demo.carol])
               <= session_size Demo.short_session).
  { vm_compute. discriminate. }
  exact (proj2 (missing_id_skipped_but_counted Demo.short_session
                  [Demo.carol] [Demo.alice; Demo.bob] 1
                  (@nil (value * list Z)) HF HB) eq_refl).
Defined.



(* ================================================================== *)
(** ** The query phase *)
(* ================================================================== *)

Section QueryPhase.

Local Close Scope string_scope.
Context `{D : Datasketch}.
Implicit Types (self : BlockingRecordIterator) (r : dict)
  (it : PGRecordIterator).


Lemma next_row self it (l : MinHashLSH) r (rest : list dict) :
  curr_it self = Some it ->
  pg_remaining it = r :: rest ->
  lsh self = Some l ->
  r <> [] ->
  next self =
    (set_curr_it self
       (Some (mkPG (pg_rows it) (pg_itersize it) (pg_name it) rest)),
     query_pair self l r).
Proof.
  intros HI HR HL HN. unfold next, pg_next. rewrite HI, HR.
  destruct r as [|kv r]; [congruence|].
  unfold query_pair.
  rewrite (get_min_hash_config
             (set_curr_it self
                (Some (mkPG (pg_rows it) (pg_itersize it) (pg_name it) rest)))
             self) by reflexivity.
  destruct (get_min_hash self (kv :: r)) as [m|e]; [|reflexivity].
  cbn [lsh set_curr_it bind]. now rewrite HL.
Qed.

Lemma next_end self it :
  curr_it self = Some it ->
  pg_remaining it = [] ->
  next self = (self, Raise StopIteration).
Proof.
  intros HI HR. unfold next, pg_next. now rewrite HI, HR.
Qed.


Lemma pulls_end self it (k : nat) :
  curr_it self = Some it ->
  pg_remaining it = [] ->
  pulls k self = (self, repeat (Raise StopIteration) k).
Proof.
  intros HI HR. induction k as [|k IH]; [reflexivity|].
  cbn [pulls repeat]. rewrite (next_end self it), IH by assumption.
  reflexivity.
Qed.



(** C10, amended.  In the query phase, with character or word flags, a
    non-empty row without the identifier field is treated as any other row:
    it is shingled and signed, the index is queried with its signature, and
    the pull returns the row with the candidates. *)
Theorem query_phase_keeps_rows_without_id self it (l : MinHashLSH) r
    (rest : list dict) :
  curr_it self = Some it ->
  pg_remaining it = r :: rest ->
  lsh self = Some l ->
  has_id self r = false ->
  r <> [] ->
  untokenized self ->
  exists cs m,
    get_shingle self r = Ok cs
    /\ get_min_hash self r = Ok m
    /\ next self =
       (set_curr_it self
          (Some (mkPG (pg_rows it) (pg_itersize it) (pg_name it) rest)),
        Ok (r, lsh_query l m)).
Proof.
  intros HI HR HL _ HN HU.
  destruct (get_shingle_untokenized self r HU) as [cs Hcs].
  destruct (get_min_hash_untokenized self r HU) as [m Hm].
  exists cs, m. repeat split; try assumption.
  rewrite (next_row self it l r rest) by assumption.
  unfold query_pair. now rewrite Hm.
Qed.

End QueryPhase.



(** C10 as stated fails: the empty row has no identifier field and is not
    yielded, the pull raises [StopIteration]; under the tokenized flag a
    row without identifier is not yielded either, the pull raises
    [AttributeError]. *)
Lemma row_without_id_not_yielded :
  has_id Demo.at_gap [] = false
  /\ snd (next Demo.at_gap) = Raise StopIteration
  /\ has_id Demo.text_at_carol Demo.carol = false
  /\ snd (next Demo.text_at_carol) = Raise AttributeError.
Proof.
  repeat split; reflexivity.
Qed.

Lemma query_phase_keeps_rows_without_id_witness :
  exists (cs : list string) (m : @MinHash Demo.lib),
    get_shingle Demo.at_carol Demo.carol = Ok cs
    /\ get_min_hash Demo.at_carol Demo.carol = Ok m
    /\ next Demo.at_carol =
       (set_curr_it Demo.at_carol
          (Some (mkPG [Demo.carol; Demo.bob] 3 "cur_matches" [Demo.bob])),
        Ok (Demo.carol, @lsh_query Demo.lib Demo.built m)).
Proof.
  assert (HN : Demo.carol <> []) by discriminate.
  exact (query_phase_keeps_rows_without_id Demo.at_carol
           (mkPG [Demo.carol; Demo.bob] 3 "cur_matches" [Demo.carol; Demo.bob])
           Demo.built Demo.carol [Demo.bob]
           eq_refl eq_refl eq_refl eq_refl HN (or_introl eq_refl)).
Defined.

(* ================================================================== *)
(** ** More on shingles and signatures *)
(* ================================================================== *)

Lemma join_split_on (sep : ascii) (s : string) :
  join (String sep "") (split_on sep s) = s.
Proof.
  induction s as [|c t IH]; [reflexivity|].
  cbn [split_on].
  destruct (split_on_cons sep t) as [w [ws Hw]]. rewrite Hw in *.
  destruct (Ascii.eqb c sep) eqn:E.
  - apply Ascii.eqb_eq in E. subst c.
    change (join (String sep "") ("" :: w :: ws))
      with (String sep (join (String sep "") (w :: ws))).
    now rewrite IH.
  - destruct ws as [|w' ws'].
    + simpl in *. now rewrite IH.
    + change (join (String sep "") (String c w :: w' :: ws'))
        with (String c (join (String sep "") (w :: w' :: ws'))).
      now rewrite IH.
Qed.

Lemma split_on_no_sep (sep : ascii) (s : string) :
  Forall (fun w => mentions sep w = false) (split_on sep s).
Proof.
  induction s as [|c t IH]; [repeat constructor|].
  cbn [split_on]. destruct (Ascii.eqb c sep) eqn:E.
  - constructor; [reflexivity | exact IH].
  - destruct (split_on sep t) as [|w ws].
    + constructor; [|constructor]. simpl. now rewrite E.
    + inversion IH as [|? ? Hw Hws]; subst.
      constructor; [|exact Hws]. simpl. now rewrite E, Hw.
Qed.

Lemma chars_re_sub_spaces (s : string) :
  Forall (fun c => exists a, c = String a "" /\ is_space a = false)
         (chars (re_sub_spaces s)).
Proof.
  induction s as [|a t IH]; [constructor|].
  cbn [re_sub_spaces]. destruct (is_space a) eqn:E; [exact IH|].
  cbn [chars]. constructor; [eauto | exact IH].
Qed.

Lemma dict_pop_filter (k : string) (d : dict) :
  wf_dict d ->
  dict_pop k d = filter (fun kv => negb (String.eqb (fst kv) k)) d.
Proof.
  unfold wf_dict.
  induction d as [|[x v] t IH]; simpl; [reflexivity|].
  intros HN. inversion HN as [|? ? Hx Ht]; subst.
  destruct (String.eqb x k) eqn:E; simpl.
  - apply String.eqb_eq in E. subst x. now rewrite filter_other_absent.
  - now rewrite IH.
Qed.

Lemma wf_dict_filter (f : string * value -> bool) (d : dict) :
  wf_dict d -> wf_dict (filter f d).
Proof.
  unfold wf_dict, keys.
  induction d as [|kv t IH]; simpl; [auto|].
  intros HN. inversion HN as [|? ? Hx Ht]; subst.
  destruct (f kv); simpl; [|auto].
  constructor; [|auto].
  intros HI. apply Hx. apply in_map_iff in HI.
  destruct HI as [kv' [HE HI]]. apply filter_In in HI.
  apply in_map_iff. exists kv'. tauto.
Qed.

Lemma record_text_loop_items (rc l : dict) (txt : value) :
  (forall kv, In kv l -> getitem rc (fst kv) = Ok (snd kv)) ->
  record_text_loop rc (keys l) txt = Ok (fold_left text_step (map snd l) txt).
Proof.
  revert txt. induction l as [|[k v] t IH]; intros txt HG; [reflexivity|].
  pose proof (HG (k, v) (or_introl eq_refl)) as Hk. simpl in Hk.
  assert (HT : forall kv, In kv t -> getitem rc (fst kv) = Ok (snd kv))
    by (intros kv HI; apply HG; now right).
  cbn [keys map fst snd record_text_loop fold_left].
  destruct txt; rewrite Hk; cbn [bind]; now apply IH.
Qed.

Section MoreShingles.

Context `{D : Datasketch}.
Implicit Types (self : BlockingRecordIterator) (r : dict).

Lemma get_record_text_wf self r :
  wf_dict r ->
  get_record_text self r =
  Ok (fold_left text_step (non_id_values (id_name self) r) VNone).
Proof.
  intros HW. unfold get_record_text, non_id_values.
  assert (HR : (if contains (id_name self) (keys r)
                then dict_pop (id_name self) r else r)
               = filter (fun kv => negb (String.eqb (fst kv) (id_name self))) r).
  { destruct (contains (id_name self) (keys r)) eqn:E.
    - now apply dict_pop_filter.
    - symmetry. apply filter_other_absent.
      intros HI. apply contains_In in HI. congruence. }
  rewrite HR. apply record_text_loop_items.
  intros [k v] HI. apply getitem_wf; [now apply wf_dict_filter | exact HI].
Qed.

(** X1.  Word shingles join back, with single spaces, to the string of the
    record: for a dict, to the truthy non-identifier values cast to string
    and joined by single spaces. *)
Theorem word_shingles_rejoin self r :
  wf_dict r ->
  is_letter self = false ->
  is_text self = false ->
  exists ws,
    get_shingle self r = Ok ws
    /\ join " " ws =
       join " " (map str (filter truthy (non_id_values (id_name self) r))).
Proof.
  intros HW HL HT. unfold get_shingle, split_record_words.
  rewrite HL, HT, record_to_string_wf by assumption. cbn [bind].
  eexists. split; [reflexivity|]. apply join_split_on.
Qed.

(** X2.  Word shingles are never an empty list and no word shingle holds a
    space, whatever the record. *)
Theorem word_shingles_shape self r :
  is_letter self = false ->
  is_text self = false ->
  exists w ws,
    get_shingle self r = Ok (w :: ws)
    /\ Forall (fun x => mentions " " x = false) (w :: ws).
Proof.
  intros HL HT. unfold get_shingle, split_record_words.
  rewrite HL, HT.
  destruct (record_to_string_total self r " ") as [s ->]. cbn [bind].
  pose proof (split_on_no_sep " " s) as HF.
  destruct (split_on_cons " " s) as [w [ws Hw]]. rewrite Hw in *.
  eauto.
Qed.

(** X3.  A dict without any truthy non-identifier value has exactly one word
    shingle, the empty string, while it has no character shingle. *)
Theorem shingles_of_valueless_record self r :
  wf_dict r ->
  filter truthy (non_id_values (id_name self) r) = [] ->
  extract self WordShingles r = Ok [""]
  /\ extract self CharacterShingles r = Ok [].
Proof.
  intros HW HE. unfold extract, split_record_words.
  rewrite !record_to_string_wf, HE by assumption. split; reflexivity.
Qed.

(** X4.  Every character shingle is a single character that is not white space,
    whatever the record. *)
Theorem character_shingles_shape self r (cs : list string) :
  is_letter self = true ->
  get_shingle self r = Ok cs ->
  Forall (fun c => exists a, c = String a "" /\ is_space a = false) cs.
Proof.
  intros HL. unfold get_shingle. rewrite HL.
  destruct (record_to_string_total self r "") as [s ->]. cbn [bind].
  rewrite split_str_to_chars_chars. intros HE.
  injection HE as <-. apply chars_re_sub_spaces.
Qed.

(** X5.  With character or word flags the signature of a dict depends on the
    values of its fields other than the identifier, in order, and on
    nothing else: neither the identifier, nor its place, nor the names of
    the fields. *)
Theorem signature_ignores_identifier self (r1 r2 : dict) :
  untokenized self ->
  wf_dict r1 ->
  wf_dict r2 ->
  non_id_values (id_name self) r1 = non_id_values (id_name self) r2 ->
  get_min_hash self r1 = get_min_hash self r2.
Proof.
  intros HU H1 H2 HV. unfold get_min_hash, get_shingle, split_record_words.
  destruct (is_letter self) eqn:L.
  - now rewrite !record_to_string_wf, HV by assumption.
  - destruct HU as [HU|HU]; [congruence|]. rewrite HU.
    now rewrite !record_to_string_wf, HV by assumption.
Qed.

(** X6.  Under the character flag a dict whose non-identifier fields are all
    blank or [None] is signed with the sketch as [MinHash] creates it, no
    update applied; all such records share one signature. *)
Theorem blank_record_signature self r :
  wf_dict r ->
  is_letter self = true ->
  forallb blank_or_none (non_id_values (id_name self) r) = true ->
  get_min_hash self r = Ok (MinHash_new (num_perm self) 1).
Proof.
  intros HW HL HB. unfold get_min_hash, get_shingle.
  rewrite HL, record_to_string_wf by assumption. cbn [bind].
  now rewrite blank_values_strip.
Qed.

(** X7.  With character or word flags signing raises nothing, on any record:
    no key is looked up that the record does not have, be the record empty,
    without identifier or with a key held twice. *)
Theorem signing_never_raises self r :
  untokenized self ->
  exists cs,
    get_shingle self r = Ok cs
    /\ get_min_hash self r =
       Ok (fold_left (fun m c => MinHash_update m (encode_utf8 c)) cs
                     (MinHash_new (num_perm self) 1)).
Proof.
  intros HU. destruct (get_shingle_untokenized self r HU) as [cs Hcs].
  exists cs. split; [exact Hcs|]. unfold get_min_hash. now rewrite Hcs.
Qed.

(** X8.  [_get_record_text] does not join the fields.  For a dict it returns
    [None] when there is no field besides the identifier, the text
    ["None <value>"] when there is one, and the bare value of the last
    field when the field before it is not [None]. *)
Theorem record_text_is_last_field self r :
  wf_dict r ->
  (non_id_values (id_name self) r = [] ->
   get_record_text self r = Ok VNone)
  /\ (forall v, non_id_values (id_name self) r = [v] ->
      get_record_text self r = Ok (VStr ("None " ++ str v)))
  /\ (forall vs a b,
      non_id_values (id_name self) r = (vs ++ [a; b])%list ->
      a <> VNone ->
      get_record_text self r = Ok b).
Proof.
  intros HW. rewrite get_record_text_wf by assumption.
  split; [|split].
  - intros ->. reflexivity.
  - intros v ->. reflexivity.
  - intros vs a b -> HA. rewrite fold_left_app. cbn [fold_left].
    set (t := fold_left text_step vs VNone).
    assert (HT : text_step t a <> VNone).
    { destruct t; simpl; [discriminate | exact HA | exact HA | exact HA]. }
    destruct (text_step t a); [congruence | reflexivity..].
Qed.

End MoreShingles.

(* ================================================================== *)
(** ** More on the two phases *)
(* ================================================================== *)

Lemma append_length (a b : string) :
  String.length (a ++ b) = (String.length a + String.length b)%nat.
Proof.
  induction a as [|c t IH]; simpl; [reflexivity | now rewrite IH].
Qed.

Section MorePhases.

Local Close Scope string_scope.
Context `{D : Datasketch}.
Implicit Types (self : BlockingRecordIterator) (r : dict).


Lemma get_min_hash_tokenized self r :
  is_letter self = false ->
  is_text self = true ->
  get_min_hash self r = Raise AttributeError.
Proof.
  intros HL HT. unfold get_min_hash. rewrite get_shingle_selected.
  unfold selected. rewrite HL, HT. now rewrite tokenized_branch_raises.
Qed.

Lemma loop_tokenized self (it : list dict) (i : Z) (session : Session) :
  is_letter self = false ->
  is_text self = true ->
  (existsb (has_id self) (firstn (Z.to_nat (session_size self - i)) it) = true
   /\ snd (create_hashes_loop self it i session) = Raise AttributeError)
  \/ (existsb (has_id self) (firstn (Z.to_nat (session_size self - i)) it)
      = false
      /\ exists run,
           snd (create_hashes_loop self it i session) = Ok run
           /\ snd (fst (create_hashes_loop self it i session)) = session).
Proof.
  intros HL HT. revert i session.
  induction it as [|r t IH]; intros i session.
  - right. rewrite firstn_nil. split; [reflexivity|].
    cbn [create_hashes_loop].
    destruct (i <? session_size self)%Z; cbn [fst snd]; eauto.
  - destruct (Z.ltb_spec i (session_size self)) as [HI|HI].
    + assert (HK : Z.to_nat (session_size self - i)
                   = S (Z.to_nat (session_size self - (i + 1)))) by lia.
      rewrite HK. cbn [firstn existsb].
      destruct (has_id self r) eqn:HR.
      * left. split; [reflexivity|].
        unfold has_id in HR. cbn [create_hashes_loop].
        destruct (Z.ltb_spec i (session_size self)); [|lia].
        destruct (getitem_in r (id_name self)) as [v Hv];
          [now apply contains_In|].
        rewrite HR, Hv, (get_min_hash_tokenized self r HL HT). reflexivity.
      * rewrite loop_skip_one by assumption. cbn [orb]. apply IH.
    + right. replace (Z.to_nat (session_size self - i)) with O by lia.
      split; [reflexivity|]. rewrite loop_done by assumption.
      cbn [fst snd]. eauto.
Qed.





(** X10.  [__iter__] on an object that is already in the query phase changes
    nothing: a second call after a successful one neither builds the index
    again nor moves the cursor. *)
Theorem iter_twice self self1 :
  iter self = (self1, Ok tt) ->
  iter self1 = (self1, Ok tt).
Proof.
  unfold iter at 1. destruct (curr_it self) as [it|] eqn:HC.
  - intros HE. injection HE as <-. unfold iter. now rewrite HC.
  - destruct (setup_lsh self) as [s1 [u|e]]; [|discriminate].
    destruct (create_hashes s1 (get_iter s1)) as [[s2 it2] [run|e]];
      [|discriminate].
    intros HE. injection HE as <-. reflexivity.
Qed.


(** X12.  Under the tokenized flag a first [__iter__], with a storage
    configuration the constructor accepts, raises [AttributeError], and
    stays out of the query phase, exactly when one of the first
    [session_size] rows has the identifier field; when none has, it
    succeeds with nothing inserted. *)
Theorem iter_tokenized self (l : MinHashLSH) :
  curr_it self = None ->
  truthy_config (storage_config self) = true ->
  MinHashLSH_new (threshold self) (num_perm self) (storage_config self)
    = Ok l ->
  is_letter self = false ->
  is_text self = true ->
  (existsb (has_id self)
     (firstn (Z.to_nat (session_size self)) (source self)) = true
   /\ snd (iter self) = Raise AttributeError
   /\ curr_it (fst (iter self)) = None)
  \/ (existsb (has_id self)
        (firstn (Z.to_nat (session_size self)) (source self)) = false
      /\ snd (iter self) = Ok tt
      /\ lsh (fst (iter self)) =
         Some (session_close (insertion_session l))).
Proof.
  intros HC HS HN HL HT. unfold iter, setup_lsh. rewrite HC, HS, HN.
  set (self1 := set_lsh self (Some l)).
  unfold create_hashes. cbn [lsh self1 set_lsh].
  destruct (loop_tokenized self1 (pg_remaining (get_iter self1)) 0
              (insertion_session l) HL HT)
    as [[HE HR]|[HE [run [HR HSess]]]];
    rewrite Z.sub_0_r in HE;
    destruct (create_hashes_loop self1 (pg_remaining (get_iter self1)) 0 _)
      as [[[rest i] session] out]; cbn [fst snd] in *; subst.
  - left. split; [exact HE|]. split; [reflexivity | exact HC].
  - right. split; [exact HE|]. split; reflexivity.
Qed.

(** X13.  Under the tokenized flag every pull on a non-empty row raises
    [AttributeError], and the cursor moves past the row all the same. *)
Theorem next_tokenized self (it : PGRecordIterator) r (rest : list dict) :
  curr_it self = Some it ->
  pg_remaining it = r :: rest ->
  r <> [] ->
  is_letter self = false ->
  is_text self = true ->
  next self =
    (set_curr_it self
       (Some (mkPG (pg_rows it) (pg_itersize it) (pg_name it) rest)),
     Raise AttributeError).
Proof.
  intros HI HR HN HL HT. unfold next, pg_next. rewrite HI, HR.
  destruct r as [|kv r]; [congruence|].
  now rewrite get_min_hash_tokenized.
Qed.


(** X15.  With a session size of zero or less the build phase reads no row and
    inserts nothing, under any flags; it returns [True]. *)
Theorem build_without_budget self (it : PGRecordIterator) (l : MinHashLSH) :
  lsh self = Some l ->
  session_size self <= 0 ->
  create_hashes self it =
    (set_lsh self (Some (session_close (insertion_session l))),
     mkPG (pg_rows it) (pg_itersize it) (pg_name it) (pg_remaining it),
     Ok true).
Proof.
  intros HL HS. unfold create_hashes. rewrite HL.
  now rewrite loop_done by lia.
Qed.


End MorePhases.

Section Invariants.

Context `{D : Datasketch}.
Implicit Types (self : BlockingRecordIterator).

Lemma setup_lsh_keeps self :
  parameters (fst (setup_lsh self)) = parameters self
  /\ curr_it (fst (setup_lsh self)) = curr_it self
  /\ (lsh self <> None -> lsh (fst (setup_lsh self)) <> None).
Proof.
  unfold setup_lsh. destruct (truthy_config (storage_config self));
    [|cbn [fst]; repeat split; auto].
  destruct (MinHashLSH_new (threshold self) (num_perm self)
                           (storage_config self));
    cbn [fst]; repeat split; auto; discriminate.
Qed.

Lemma create_hashes_keeps self (it : PGRecordIterator) :
  parameters (fst (fst (create_hashes self it))) = parameters self
  /\ curr_it (fst (fst (create_hashes self it))) = curr_it self
  /\ (lsh self <> None -> lsh (fst (fst (create_hashes self it))) <> None).
Proof.
  unfold create_hashes. destruct (lsh self) as [l|].
  - destruct (create_hashes_loop self (pg_remaining it) 0 (insertion_session l))
      as [[[rest i] session] run].
    cbn [fst]. repeat split; discriminate.
  - cbn [fst]. repeat split; auto.
Qed.

Lemma next_keeps self :
  parameters (fst (next self)) = parameters self
  /\ lsh (fst (next self)) = lsh self
  /\ (curr_it self <> None -> curr_it (fst (next self)) <> None).
Proof.
  unfold next. destruct (curr_it self) as [it|] eqn:HC;
    [|cbn [fst]; repeat split; auto].
  destruct (pg_next it) as [it' [nrow|e]];
    [|cbn [fst]; repeat split; auto; rewrite HC; discriminate].
  destruct nrow as [|kv nrow];
    [cbn [fst]; repeat split; intros _; discriminate|].
  destruct (get_min_hash _ _);
    [|cbn [fst]; repeat split; intros _; discriminate].
  change (lsh (set_curr_it self (Some it'))) with (lsh self).
  destruct (lsh self) eqn:HL;
    cbn [fst]; (split; [reflexivity|]);
    (split; [exact HL | intros _; discriminate]).
Qed.

Lemma iter_keeps self :
  parameters (fst (iter self)) = parameters self
  /\ (curr_it self <> None -> curr_it (fst (iter self)) <> None)
  /\ (lsh self <> None -> lsh (fst (iter self)) <> None).
Proof.
  unfold iter. destruct (curr_it self) as [it|] eqn:HC;
    [cbn [fst]; repeat split; auto; rewrite HC; discriminate|].
  destruct (setup_lsh_keeps self) as [HP [_ HL]].
  destruct (setup_lsh self) as [self1 [u|e]]; cbn [fst] in *;
    [|repeat split; auto; congruence].
  destruct (create_hashes_keeps self1 (get_iter self1)) as [HP2 [_ HL2]].
  destruct (create_hashes self1 (get_iter self1)) as [[self2 it2] [run|e]];
    cbn [fst] in *.
  - split; [rewrite <- HP, <- HP2; reflexivity|].
    split; [intros _; discriminate | auto].
  - split; [congruence|]. split; [congruence | auto].
Qed.

Lemma call_keeps self self' :
  call self self' ->
  parameters self' = parameters self
  /\ (curr_it self <> None -> curr_it self' <> None)
  /\ (lsh self <> None -> lsh self' <> None).
Proof.
  intros [s|s it|s|s].
  - destruct (setup_lsh_keeps s) as [HP [HC HL]].
    repeat split; auto. intros HN. now rewrite HC.
  - destruct (create_hashes_keeps s it) as [HP [HC HL]].
    repeat split; auto. intros HN. now rewrite HC.
  - apply iter_keeps.
  - destruct (next_keeps s) as [HP [HL HC]].
    repeat split; auto. intros HN. now rewrite HL.
Qed.

(** X17.  No sequence of method calls changes the cursor name, the source, the
    session size, the threshold or the storage configuration of an
    object. *)
Theorem parameters_never_change self self' :
  calls self self' ->
  parameters self' = parameters self.
Proof.
  induction 1 as [|s s1 s2 HC _ IH]; [reflexivity|].
  rewrite IH. now apply call_keeps.
Qed.

(** X18.  The phases only go forward: once the object has its index no method
    call takes it away, and once it has the query cursor no method call
    brings it back before the build phase. *)
Theorem phases_go_forward self self' :
  calls self self' ->
  (lsh self <> None -> lsh self' <> None)
  /\ (curr_it self <> None -> curr_it self' <> None).
Proof.
  induction 1 as [|s s1 s2 HC _ [IHL IHC]]; [auto|].
  destruct (call_keeps s s1 HC) as [_ [HCu HL]]. auto.
Qed.

(** X19.  After a first [__iter__] that succeeds, under any flags, the query
    cursor stands before the first row of the source and bears the cursor
    name followed by [_matches], which is not the name the build phase
    read under. *)
Theorem iter_reopens_renamed self self1 :
  curr_it self = None ->
  iter self = (self1, Ok tt) ->
  exists it,
    curr_it self1 = Some it
    /\ pg_remaining it = source self
    /\ pg_name it = cursor_name self ++ "_matches"
    /\ pg_name it <> pg_name (get_iter self).
Proof.
  intros HC. unfold iter, setup_lsh. rewrite HC.
  destruct (truthy_config (storage_config self)); [|discriminate].
  destruct (MinHashLSH_new (threshold self) (num_perm self)
                           (storage_config self)) as [l|e]; [|discriminate].
  set (s1 := set_lsh self (Some l)).
  unfold create_hashes. cbn [lsh s1 set_lsh].
  destruct (create_hashes_loop s1 (pg_remaining (get_iter s1)) 0 _)
    as [[[rest i] session] [run|e]]; [|discriminate].
  intros HE. injection HE as <-.
  eexists. split; [reflexivity|]. cbn.
  repeat split. intros HN.
  apply (f_equal String.length) in HN. rewrite append_length in HN.
  simpl in HN. lia.
Qed.

End Invariants.

Section MoreQueries.

Local Close Scope string_scope.
Context `{D : Datasketch}.
Implicit Types (self : BlockingRecordIterator).

(** X20.  Pulling never changes the index: after any number of calls of
    [__next__] the object holds the index it held before. *)
Theorem pulls_keep_index self (n : nat) :
  lsh (fst (pulls n self)) = lsh self.
Proof.
  revert self. induction n as [|n IH]; intros self; [reflexivity|].
  cbn [pulls].
  destruct (next_keeps self) as [_ [HL _]].
  destruct (next self) as [self1 out]. cbn [fst] in HL.
  specialize (IH self1).
  destruct (pulls n self1) as [self2 outs]. cbn [fst] in *.
  congruence.
Qed.

(** X21.  An object whose stream is exhausted cannot be started again: another
    [__iter__] succeeds without doing anything, and every pull after it
    raises [StopIteration]. *)
Theorem exhausted_stays_exhausted self (it : PGRecordIterator) (k : nat) :
  curr_it self = Some it ->
  pg_remaining it = [] ->
  iter self = (self, Ok tt)
  /\ snd (pulls k (fst (iter self))) = repeat (Raise StopIteration) k.
Proof.
  intros HC HR.
  assert (HI : iter self = (self, Ok tt)) by (unfold iter; now rewrite HC).
  split; [exact HI|]. rewrite HI. cbn [fst].
  now rewrite (pulls_end self it k).
Qed.

End MoreQueries.

Lemma encode_char_cons (c : ascii) :
  exists b bs, encode_char c = b :: bs.
Proof.
  unfold encode_char. destruct (N_of_ascii c <? 128)%N; eauto.
Qed.

Lemma byte_of_ascii_eq (a b : ascii) :
  byte_of_ascii a = byte_of_ascii b -> a = b.
Proof.
  intros HE. apply (f_equal ascii_of_byte) in HE.
  now rewrite !ascii_of_byte_of_ascii in HE.
Qed.

Lemma encode_char_prefix (c1 c2 : ascii) (l1 l2 : list Byte.byte) :
  (encode_char c1 ++ l1 = encode_char c2 ++ l2)%list ->
  c1 = c2 /\ l1 = l2.
Proof.
  unfold encode_char.
  pose proof (N_ascii_bounded c1) as B1.
  pose proof (N_ascii_bounded c2) as B2.
  pose proof (N.div_mod (N_of_ascii c1) 64 ltac:(lia)) as D1.
  pose proof (N.div_mod (N_of_ascii c2) 64 ltac:(lia)) as D2.
  pose proof (N.mod_lt (N_of_ascii c1) 64 ltac:(lia)) as M1.
  pose proof (N.mod_lt (N_of_ascii c2) 64 ltac:(lia)) as M2.
  set (q1 := (N_of_ascii c1 / 64)%N) in *.
  set (q2 := (N_of_ascii c2 / 64)%N) in *.
  set (m1 := (N_of_ascii c1 mod 64)%N) in *.
  set (m2 := (N_of_ascii c2 mod 64)%N) in *.
  set (h1 := (192 + q1)%N). set (h2 := (192 + q2)%N).
  set (t1 := (128 + m1)%N). set (t2 := (128 + m2)%N).
  assert (Hh1 : (h1 < 256)%N) by (unfold h1; lia).
  assert (Hh2 : (h2 < 256)%N) by (unfold h2; lia).
  assert (Ht1 : (t1 < 256)%N) by (unfold t1; lia).
  assert (Ht2 : (t2 < 256)%N) by (unfold t2; lia).
  assert (Eh1 : h1 = (192 + q1)%N) by reflexivity.
  assert (Eh2 : h2 = (192 + q2)%N) by reflexivity.
  assert (Et1 : t1 = (128 + m1)%N) by reflexivity.
  assert (Et2 : t2 = (128 + m2)%N) by reflexivity.
  clearbody h1 h2 t1 t2 q1 q2 m1 m2.
  destruct (N.ltb_spec (N_of_ascii c1) 128) as [H1|H1];
    destruct (N.ltb_spec (N_of_ascii c2) 128) as [H2|H2];
    cbn [app]; intros HE.
  - injection HE as Hb Hl. split; [now apply byte_of_ascii_eq | exact Hl].
  - injection HE as Hb _. apply byte_of_ascii_eq in Hb.
    apply (f_equal N_of_ascii) in Hb.
    rewrite N_ascii_embedding in Hb by assumption. lia.
  - injection HE as Hb _. apply byte_of_ascii_eq in Hb.
    apply (f_equal N_of_ascii) in Hb.
    rewrite N_ascii_embedding in Hb by assumption. lia.
  - injection HE as Hb Hc Hl.
    apply byte_of_ascii_eq in Hb. apply byte_of_ascii_eq in Hc.
    apply (f_equal N_of_ascii) in Hb. apply (f_equal N_of_ascii) in Hc.
    rewrite !N_ascii_embedding in Hb, Hc by assumption.
    split; [|exact Hl].
    rewrite <- (ascii_N_embedding c1), <- (ascii_N_embedding c2).
    f_equal. lia.
Qed.

(** X22.  The bytes handed to the sketch tell the shingles apart: two shingles
    with the same UTF-8 encoding are the same string. *)
Theorem encode_utf8_injective (s1 s2 : string) :
  encode_utf8 s1 = encode_utf8 s2 -> s1 = s2.
Proof.
  revert s2. induction s1 as [|c1 t1 IH]; intros [|c2 t2]; cbn [encode_utf8].
  - reflexivity.
  - destruct (encode_char_cons c2) as [b [bs ->]]. discriminate.
  - destruct (encode_char_cons c1) as [b [bs ->]]. discriminate.
  - intros HE. apply encode_char_prefix in HE. destruct HE as [-> HE].
    now rewrite (IH t2 HE).
Qed.

(* ================================================================== *)
(** ** The properties above on concrete objects *)
(* ================================================================== *)

Lemma wf_alice : wf_dict Demo.alice.
Proof. repeat constructor; simpl; intuition congruence. Defined.

Lemma wf_alias : wf_dict Demo.alias.
Proof. repeat constructor; simpl; intuition congruence. Defined.

Lemma wf_hollow : wf_dict Demo.hollow.
Proof. repeat constructor; simpl; intuition congruence. Defined.

Lemma wf_stock : wf_dict Demo.stock.
Proof. repeat constructor; simpl; intuition congruence. Defined.

Lemma wf_trio : wf_dict Demo.trio.
Proof. repeat constructor; simpl; intuition congruence. Defined.

Lemma word_shingles_rejoin_witness :
  exists ws,
    get_shingle Demo.by_word Demo.alice = Ok ws
    /\ join " " ws = "alice smith".
Proof.
  exact (word_shingles_rejoin Demo.by_word Demo.alice wf_alice
           eq_refl eq_refl).
Defined.

Lemma word_shingles_shape_witness :
  exists w ws,
    get_shingle Demo.by_word Demo.hollow = Ok (w :: ws)
    /\ Forall (fun x => mentions " " x = false) (w :: ws).
Proof.
  exact (word_shingles_shape Demo.by_word Demo.hollow eq_refl eq_refl).
Defined.

Lemma shingles_of_valueless_record_witness :
  extract Demo.by_word WordShingles Demo.stock = Ok [""]
  /\ extract Demo.by_word CharacterShingles Demo.stock = Ok [].
Proof.
  exact (shingles_of_valueless_record Demo.by_word Demo.stock wf_stock
           eq_refl).
Defined.

Lemma character_shingles_shape_witness :
  Forall (fun c => exists a, c = String a "" /\ is_space a = false)
         ["a"; "l"; "i"; "c"; "e"; "s"; "m"; "i"; "t"; "h"].
Proof.
  exact (character_shingles_shape Demo.by_letter Demo.alice _
           eq_refl eq_refl).
Defined.

Lemma signature_ignores_identifier_witness :
  get_min_hash Demo.by_letter Demo.alice
  = get_min_hash Demo.by_letter Demo.alias.
Proof.
  exact (signature_ignores_identifier Demo.by_letter Demo.alice Demo.alias
           (or_introl eq_refl) wf_alice wf_alias eq_refl).
Defined.

Lemma blank_record_signature_witness :
  get_min_hash Demo.by_letter Demo.hollow = Ok (@MinHash_new Demo.lib 4 1).
Proof.
  exact (blank_record_signature Demo.by_letter Demo.hollow wf_hollow
           eq_refl eq_refl).
Defined.

Lemma signing_never_raises_witness :
  exists cs,
    get_shingle Demo.by_word [] = Ok cs
    /\ get_min_hash Demo.by_word [] =
       Ok (fold_left (fun m c => MinHash_update m (encode_utf8 c)) cs
                     (MinHash_new (num_perm Demo.by_word) 1)).
Proof.
  exact (signing_never_raises Demo.by_word [] (or_intror eq_refl)).
Defined.

Lemma record_text_is_last_field_witness :
  get_record_text Demo.by_text Demo.trio = Ok (VStr "lee").
Proof.
  exact (proj2 (proj2 (record_text_is_last_field Demo.by_text Demo.trio
                         wf_trio))
               [VStr "ann"] (VStr "b") (VStr "lee") eq_refl
               ltac:(discriminate)).
Defined.


Lemma iter_twice_witness :
  iter Demo.querying = (Demo.querying, Ok tt).
Proof.
  exact (iter_twice Demo.by_letter Demo.querying eq_refl).
Defined.


Lemma iter_tokenized_witness :
  snd (iter Demo.by_text) = Raise AttributeError
  /\ snd (iter Demo.text_no_ids) = Ok tt.
Proof.
  split.
  - destruct (iter_tokenized Demo.by_text (@nil (value * list Z))
                eq_refl eq_refl eq_refl eq_refl eq_refl)
      as [[_ [HR _]]|[HE _]]; [exact HR | discriminate HE].
  - destruct (iter_tokenized Demo.text_no_ids (@nil (value * list Z))
                eq_refl eq_refl eq_refl eq_refl eq_refl)
      as [[HE _]|[_ [HR _]]]; [discriminate HE | exact HR].
Defined.

Lemma next_tokenized_witness :
  next Demo.text_querying =
    (set_curr_it Demo.text_querying
       (Some (mkPG Demo.people 3 "cur_matches" [Demo.alyce; Demo.bob])),
     Raise AttributeError).
Proof.
  assert (HN : Demo.alice <> []) by discriminate.
  exact (next_tokenized Demo.text_querying
           (mkPG Demo.people 3 "cur_matches" Demo.people)
           Demo.alice [Demo.alyce; Demo.bob]
           eq_refl eq_refl HN eq_refl eq_refl).
Defined.


Lemma build_without_budget_witness :
  create_hashes Demo.no_budget (get_iter Demo.no_budget) =
    (set_lsh Demo.no_budget (Some (@nil (value * list Z))),
     mkPG Demo.people 0 "cur" Demo.people, Ok true).
Proof.
  assert (HS : session_size Demo.no_budget <= 0)
    by (vm_compute; discriminate).
  exact (build_without_budget Demo.no_budget (get_iter Demo.no_budget)
           (@nil (value * list Z)) eq_refl HS).
Defined.


Lemma calls_iter_next :
  calls Demo.by_letter (fst (next (fst (iter Demo.by_letter)))).
Proof.
  eapply calls_cons; [apply call_iter|].
  eapply calls_cons; [apply call_next|].
  apply calls_nil.
Defined.

Lemma parameters_never_change_witness :
  parameters (fst (next (fst (iter Demo.by_letter))))
  = parameters Demo.by_letter.
Proof.
  exact (parameters_never_change _ _ calls_iter_next).
Defined.

Lemma phases_go_forward_witness :
  curr_it (fst (next (fst (iter Demo.querying)))) <> None.
Proof.
  assert (HC : calls Demo.querying (fst (next (fst (iter Demo.querying))))).
  { eapply calls_cons; [apply call_iter|].
    eapply calls_cons; [apply call_next|].
    apply calls_nil. }
  apply (proj2 (phases_go_forward _ _ HC)). discriminate.
Defined.

Lemma iter_reopens_renamed_witness :
  exists it,
    curr_it Demo.querying = Some it
    /\ pg_remaining it = Demo.people
    /\ pg_name it = "cur_matches"
    /\ pg_name it <> "cur".
Proof.
  exact (iter_reopens_renamed Demo.by_letter Demo.querying eq_refl eq_refl).
Defined.

Lemma exhausted_stays_exhausted_witness :
  iter (fst (pulls 3 Demo.querying)) = (fst (pulls 3 Demo.querying), Ok tt)
  /\ snd (pulls 2 (fst (iter (fst (pulls 3 Demo.querying)))))
     = [Raise StopIteration; Raise StopIteration].
Proof.
  exact (exhausted_stays_exhausted (fst (pulls 3 Demo.querying))
           (mkPG Demo.people 3 "cur_matches" []) 2 eq_refl eq_refl).
Defined.

Lemma encode_utf8_injective_witness : "ab" = "ab".
Proof.
  exact (encode_utf8_injective "ab" "ab" eq_refl).
Defined.
